(** * Reinsurance risk engine: excess-of-loss Monte Carlo simulation

    A shallow embedding of [reinsurance.py] and the properties of its
    parameter conversion, its simulation loop and its risk metrics.

    Modelling conventions.
    - A Python [float] and a NumPy [float64] are idealised as a real number
      (type [R]): no rounding, no overflow.  The non-finite results NumPy can
      still produce on real inputs (the logarithm of a non-positive number,
      the mean of an empty array, a division by zero) are kept: a NumPy
      scalar is an [npfloat], a real or one of [PosInf], [NegInf], [NaN].
    - Python exceptions are results [Raise e] of the error monad [result].
    - The process-wide random generator is an input: [rng i] holds what the
      two sampling calls of trial [i] return.  The predicates
      [binomial_support] and [lognormal_support] say which arrays the
      samplers can return.
    - The module-level constants are the fields of [config];
      [source_config] holds the values written in the source.
    - The text [print] writes is not modelled: [retention_report] returns
      the six numbers the source prints for one retention level, and
      [run_engine_prints] records which banners and blocks of numbers are
      printed, in order, before the run returns or raises. *)

From Stdlib Require Import Reals Lra Lia ZArith List.
From stdpp Require Import gmap sorting strings.

(** ** Python and NumPy values *)

Inductive exn : Type :=
| ZeroDivisionError
| KeyError.

Inductive result (A : Type) : Type :=
| Ok (a : A)
| Raise (e : exn).
Arguments Ok {A} a.
Arguments Raise {A} e.

#[global] Instance result_ret : MRet result := fun A a => Ok a.
#[global] Instance result_bind : MBind result := fun A B k m =>
  match m with
  | Ok a => k a
  | Raise e => Raise e
  end.

Inductive npfloat : Type :=
| Fin (r : R)
| PosInf
| NegInf
| NaN.

(** A counter of the loop is the Python [int] it starts as until the first
    [+=] with a NumPy integer makes it an [int64].  Counts stay far below
    2^63 (a count is bounded by the number of array cells ever allocated),
    so the value is an unbounded integer. *)
Inductive counter : Type :=
| PyInt (z : Z)
| NpInt64 (z : Z).

Definition counter_value (c : counter) : Z :=
  match c with
  | PyInt z => z
  | NpInt64 z => z
  end.

#[global] Instance Rle_decision : RelDecision Rle := Rle_dec.
#[global] Instance Rlt_decision : RelDecision Rlt := Rlt_dec.
#[global] Instance Rge_decision : RelDecision Rge := Rge_dec.
#[global] Instance Rgt_decision : RelDecision Rgt := Rgt_dec.
#[global] Instance Req_decision : EqDecision R := Req_dec_T.
#[global] Instance Rle_transitive : Transitive Rle := Rle_trans.
#[global] Instance Rle_total : Total Rle.
Proof. intros x y. destruct (Rle_lt_dec x y); [by left | right; lra]. Qed.

Module Numpy.

(** [c += n] with [n] a NumPy integer. *)
Definition iadd (c : counter) (n : Z) : counter :=
  NpInt64 (counter_value c + n).

(** [a / b] on Python floats. *)
Definition py_truediv (a b : R) : result R :=
  if decide (b = 0%R) then Raise ZeroDivisionError else Ok (a / b)%R.

(** [x / y] with [x] a NumPy scalar and [y] a real: a warning and a
    non-finite value when [y] is zero, never an exception.  (Signed zeros
    are not modelled: a zero divisor counts as positive.) *)
Definition np_truediv (x : npfloat) (y : R) : npfloat :=
  match x with
  | Fin a =>
      if decide (y = 0%R) then
        if decide (0 < a)%R then PosInf
        else if decide (a < 0)%R then NegInf
        else NaN
      else Fin (a / y)
  | PosInf => if decide (y < 0)%R then NegInf else PosInf
  | NegInf => if decide (y < 0)%R then PosInf else NegInf
  | NaN => NaN
  end.

(** [a / b] on the loop's counters: Python's integer division raises on a
    zero divisor, NumPy's does not. *)
Definition counter_truediv (a b : counter) : result npfloat :=
  match a, b with
  | PyInt x, PyInt y =>
      if decide (y = 0%Z) then Raise ZeroDivisionError
      else Ok (Fin (IZR x / IZR y))
  | _, _ => Ok (np_truediv (Fin (IZR (counter_value a))) (IZR (counter_value b)))
  end.

Definition np_log (x : R) : npfloat :=
  if decide (0 < x)%R then Fin (ln x)
  else if decide (x = 0%R) then NegInf
  else NaN.

Definition np_sqrt (x : npfloat) : npfloat :=
  match x with
  | Fin a => if decide (0 <= a)%R then Fin (sqrt a) else NaN
  | PosInf => PosInf
  | NegInf => NaN
  | NaN => NaN
  end.

Definition np_sub (x y : npfloat) : npfloat :=
  match x, y with
  | Fin a, Fin b => Fin (a - b)
  | NaN, _ | _, NaN => NaN
  | PosInf, PosInf | NegInf, NegInf => NaN
  | PosInf, _ | _, NegInf => PosInf
  | NegInf, _ | _, PosInf => NegInf
  end.

(** [a.sum()] on a float array and on an integer array. *)
Definition np_sum (a : list R) : R := foldr Rplus 0%R a.
Definition np_sum_int (a : list Z) : Z := foldr Z.add 0%Z a.

(** [np.sum(mask)]: the number of [True] cells. *)
Definition np_count (mask : list bool) : Z :=
  np_sum_int (map (fun b : bool => if b then 1%Z else 0%Z) mask).

(** [a - c], [np.maximum(c, a)] and [a > c] with a scalar [c]. *)
Definition np_sub_scalar (a : list R) (c : R) : list R :=
  map (fun x => (x - c)%R) a.
Definition np_maximum (c : R) (a : list R) : list R :=
  map (fun x => Rmax c x) a.
Definition np_gt_scalar (a : list R) (c : R) : list bool :=
  map (fun x => bool_decide (x > c)%R) a.

(** [a[a >= c]] *)
Definition np_select_ge (a : list R) (c : R) : list R :=
  filter (fun x => (x >= c)%R) a.

(** [a.mean()]: NaN (and a warning) on an empty array. *)
Definition np_mean (a : list R) : npfloat :=
  match a with
  | [] => NaN
  | _ => Fin (np_sum a / INR (length a))
  end.

(** [a.std()], that is [sqrt(mean(abs(a - a.mean())**2))]. *)
Definition np_std (a : list R) : npfloat :=
  match a with
  | [] => NaN
  | _ =>
      let m := (np_sum a / INR (length a))%R in
      np_sqrt (np_mean (map (fun x => (Rabs (x - m) ^ 2)%R) a))
  end.

(** [np.percentile(a, q)] with the default linear interpolation, for an
    integer [q] between 0 and 100: the virtual index [q/100 * (n-1)] is
    split into its floor [lo] and its fractional part [gamma]; the result
    interpolates between the cells [lo] and [lo+1] (clipped to the last
    cell) of the sorted array.  The array is never empty where the engine
    calls this ([N_SIM >= 1]); on [[]] the value below is a placeholder
    that no statement relies on. *)
Definition np_sort (a : list R) : list R := merge_sort Rle a.

Definition np_percentile (a : list R) (q : nat) : R :=
  let s := np_sort a in
  let k := (q * (length a - 1))%nat in
  let lo := (k / 100)%nat in
  let hi := Nat.min (lo + 1) (length a - 1) in
  let gamma := (INR (k mod 100) / 100)%R in
  let x := nth lo s 0%R in
  let y := nth hi s 0%R in
  (x + (y - x) * gamma)%R.

End Numpy.

Import Numpy.

(** ** Configuration: the module-level constants *)

Record config : Type := {
  N_SIM : nat;
  N_POLICIES : nat;
  CLAIM_PROB : R;
  RETENTIONS : list Z;
  PREMIUMS : gmap Z R
}.

Definition source_config : config := {|
  N_SIM := Z.to_nat 100000;
  N_POLICIES := 200;
  CLAIM_PROB := 0.20%R;
  RETENTIONS := [25; 30]%Z;
  PREMIUMS := {[ 25%Z := 48.5%R; 30%Z := 38.2%R ]}
|}.

Definition MEAN : R := 9.070%R.
Definition STD : R := 10.132%R.

(** ** The random source *)

(** What the two sampling calls of one trial return: the array of
    [np.random.binomial(1, CLAIM_PROB, N_POLICIES)] and the array of
    [np.random.lognormal(mu, sigma, n_claims)].  The engine makes the second
    call, and reads [sizes], only when [n_claims > 0]. *)
Record draw : Type := {
  claims : list Z;
  sizes : list R
}.

(** The arrays [np.random.binomial(1, p, n)] can return: [n] cells, each 0
    or 1, all 0 when [p = 0] and all 1 when [p = 1]. *)
Definition binomial_support (p : R) (n : nat) (a : list Z) : Prop :=
  length a = n /\
  Forall (fun c => c = 0%Z \/ c = 1%Z) a /\
  (p = 0%R -> Forall (fun c => c = 0%Z) a) /\
  (p = 1%R -> Forall (fun c => c = 1%Z) a).

(** The arrays [np.random.lognormal(mu, sigma, n)] can return for finite
    parameters: [n] cells, each positive. *)
Definition lognormal_support (n : Z) (a : list R) : Prop :=
  length a = Z.to_nat n /\ Forall (fun s => (0 < s)%R) a.

(** ** Distribution parameterizer *)

(** [mean] and [std] are Python floats, as at both call sites, so that the
    division is Python's. *)
Definition lognormal_params (mean std : R) : result (npfloat * npfloat) :=
  q ← py_truediv (std ^ 2) (mean ^ 2);
  let sigma2 := np_log (1 + q) in
  let sigma := np_sqrt sigma2 in
  let mu := np_sub (np_log mean) (np_truediv sigma2 2) in
  mret (mu, sigma).

(** ** Monte Carlo risk engine *)

Record loop_state : Type := {
  portfolio_losses : list R;
  reinsurer_hits : counter;
  total_claims : counter
}.

Record metrics : Type := {
  mean_loss : npfloat;
  std_loss : npfloat;
  var_99 : R;
  tvar_99 : npfloat;
  prob_reinsurer : npfloat;
  value_for_money : npfloat
}.

Definition loop_init : loop_state := {|
  portfolio_losses := [];
  reinsurer_hits := PyInt 0;
  total_claims := PyInt 0
|}.

Definition n_claims (d : draw) : Z := np_sum_int (claims d).

(** Step 3 of a trial: the ceded amounts, and the total the trial records. *)
Definition ceded (ret : R) (d : draw) : list R :=
  np_maximum 0 (np_sub_scalar (sizes d) ret).

Definition ceded_total (ret : R) (d : draw) : R :=
  if decide (n_claims d > 0)%Z then np_sum (ceded ret d) else 0%R.

(** The body of the simulation loop. *)
Definition trial (ret : R) (st : loop_state) (d : draw) : loop_state :=
  if decide (n_claims d > 0)%Z then
    {| portfolio_losses := portfolio_losses st ++ [np_sum (ceded ret d)];
       reinsurer_hits :=
         iadd (reinsurer_hits st) (np_count (np_gt_scalar (sizes d) ret));
       total_claims := iadd (total_claims st) (n_claims d) |}
  else
    {| portfolio_losses := portfolio_losses st ++ [0%R];
       reinsurer_hits := reinsurer_hits st;
       total_claims := total_claims st |}.

(** The state after the first [k] iterations of [for _ in range(N_SIM)]. *)
Fixpoint simulate (ret : R) (rng : nat -> draw) (k : nat) : loop_state :=
  match k with
  | O => loop_init
  | S k' => trial ret (simulate ret rng k') (rng k')
  end.

Definition VaR_99 (losses : list R) : R := np_percentile losses 99.

Definition TVaR_99 (losses : list R) : npfloat :=
  np_mean (np_select_ge losses (VaR_99 losses)).

Definition prob_reinsurer_pays (st : loop_state) : result npfloat :=
  counter_truediv (reinsurer_hits st) (total_claims st).

Definition getitem (d : gmap Z R) (k : Z) : result R :=
  match d !! k with
  | Some v => Ok v
  | None => Raise KeyError
  end.

Definition value_for_money_of (premiums : gmap Z R) (ret : Z) (m : npfloat)
  : result npfloat :=
  premium ← getitem premiums ret;
  mret (np_truediv m premium).

(** The counters are still the Python [0] they started as, or both have
    become NumPy integers, the total then being positive. *)
Inductive counters_shape (st : loop_state) : Prop :=
| counters_untouched :
    reinsurer_hits st = PyInt 0 -> total_claims st = PyInt 0 ->
    counters_shape st
| counters_numpy (h t : Z) :
    reinsurer_hits st = NpInt64 h -> total_claims st = NpInt64 t ->
    (0 <= h)%Z -> (0 < t)%Z ->
    counters_shape st.

Section Engine.

Variable cfg : config.

(** A trial's draws are arrays the samplers can return under [cfg]. *)
Definition valid_draw (d : draw) : Prop :=
  binomial_support (CLAIM_PROB cfg) (N_POLICIES cfg) (claims d) /\
  ((n_claims d > 0)%Z -> lognormal_support (n_claims d) (sizes d)).

(** The body of [for R in RETENTIONS]; [ret] is promoted to a float where
    it meets the claim sizes and is the dictionary key as it stands. *)
Definition retention_report (ret : Z) (rng : nat -> draw) : result metrics :=
  let st := simulate (IZR ret) rng (N_SIM cfg) in
  let losses := portfolio_losses st in
  let mean_loss := np_mean losses in
  let std_loss := np_std losses in
  let var_99 := VaR_99 losses in
  let tvar_99 := TVaR_99 losses in
  prob_reinsurer ← prob_reinsurer_pays st;
  value_for_money ← value_for_money_of (PREMIUMS cfg) ret mean_loss;
  mret {| mean_loss := mean_loss;
          std_loss := std_loss;
          var_99 := var_99;
          tvar_99 := tvar_99;
          prob_reinsurer := prob_reinsurer;
          value_for_money := value_for_money |}.

(** [rng i] is the random source of the [i]-th retention level.  The pair
    [(mu, sigma)] only parameterizes the sampler, whose outputs [rng] holds;
    a failure of the parameterizer ends the run before any level. *)
Definition run_engine (mean std : R) (rng : nat -> nat -> draw)
  : result (list metrics) :=
  _ ← lognormal_params mean std;
  mapM (fun '(i, ret) => retention_report ret (rng i))
       (imap pair (RETENTIONS cfg)).

End Engine.

(** ** Reference estimators *)

(** The two estimators in the specification's vocabulary: the standard
    deviation with denominator [N] and the one with denominator [N - 1]. *)
Definition mean_of (l : list R) : R := (np_sum l / INR (length l))%R.

Definition squared_deviations (l : list R) : R :=
  np_sum (map (fun x => ((x - mean_of l) ^ 2)%R) l).

Definition population_std (l : list R) : R :=
  sqrt (squared_deviations l / INR (length l)).

Definition sample_std (l : list R) : R :=
  sqrt (squared_deviations l / (INR (length l) - 1)).

(** ** Example scenarios *)

(** A one-policy portfolio simulated for two years, with a premium quoted
    for the retention level 25 only; [idle_config] is the same portfolio
    with a zero claim probability. *)
Definition toy_config : config := {|
  N_SIM := 2;
  N_POLICIES := 1;
  CLAIM_PROB := 0.5%R;
  RETENTIONS := [25%Z];
  PREMIUMS := {[ 25%Z := 48.5%R ]}
|}.

Definition idle_config : config := {|
  N_SIM := 2;
  N_POLICIES := 1;
  CLAIM_PROB := 0%R;
  RETENTIONS := [25%Z];
  PREMIUMS := {[ 25%Z := 48.5%R ]}
|}.

(** The same portfolio as [toy_config] with a premium of 0. *)
Definition free_config : config := {|
  N_SIM := 2;
  N_POLICIES := 1;
  CLAIM_PROB := 0.5%R;
  RETENTIONS := [25%Z];
  PREMIUMS := {[ 25%Z := 0%R ]}
|}.

Definition one_claim (s : R) : draw := {| claims := [1%Z]; sizes := [s] |}.
Definition no_claim : draw := {| claims := [0%Z]; sizes := [] |}.

(** Years without claims only. *)
Definition quiet_years (i : nat) : draw := no_claim.

(** A year without claims, then years with one claim of size [s]. *)
Definition two_years (s : R) (i : nat) : draw :=
  match i with
  | O => no_claim
  | _ => one_claim s
  end.

(** ** Console output and the script *)

(** The gross claims of a trial, what insurer and reinsurer pay together. *)
Definition gross_total (d : draw) : R :=
  if decide (n_claims d > 0)%Z then np_sum (sizes d) else 0%R.

(** What [run_engine] prints: the banner with the title, then one block of
    six numbers for a retention level.  (The text of a printed float is not
    modelled; a block holds the numbers.) *)
Inductive output : Type :=
| Banner (title : string)
| Block (ret : Z) (m : metrics).

(** [for R in RETENTIONS] from the [i]-th level on: what is printed, and
    the exception that ends the loop, if any.  A level prints after all its
    computations, so it prints its whole block or nothing. *)
Fixpoint report_levels (cfg : config) (rng : nat -> nat -> draw) (i : nat)
    (rets : list Z) : list output * option exn :=
  match rets with
  | [] => ([], None)
  | ret :: rest =>
      match retention_report cfg ret (rng i) with
      | Raise e => ([], Some e)
      | Ok m =>
          let '(out, r) := report_levels cfg rng (S i) rest in
          (Block ret m :: out, r)
      end
  end.

(** [run_engine(mean, std, title)] with its output: the banner is printed
    before the parameterizer is called. *)
Definition run_engine_prints (cfg : config) (mean std : R) (title : string)
    (rng : nat -> nat -> draw) : list output * option exn :=
  match lognormal_params mean std with
  | Raise e => ([Banner title], Some e)
  | Ok _ =>
      let '(out, r) := report_levels cfg rng 0 (RETENTIONS cfg) in
      (Banner title :: out, r)
  end.


(** ** The loss distribution built by the loop *)

Lemma trial_losses (ret : R) (st : loop_state) (d : draw) :
  portfolio_losses (trial ret st d)
  = portfolio_losses st ++ [ceded_total ret d].
Proof. unfold trial, ceded_total. by case_decide. Qed.

Lemma simulate_losses (ret : R) (rng : nat -> draw) (k : nat) :
  portfolio_losses (simulate ret rng k)
  = map (fun i => ceded_total ret (rng i)) (seq 0 k).
Proof.
  induction k as [|k IH]; [done|].
  rewrite seq_S, map_app. cbn [simulate].
  by rewrite trial_losses, IH.
Qed.

Lemma simulate_losses_length (ret : R) (rng : nat -> draw) (k : nat) :
  length (portfolio_losses (simulate ret rng k)) = k.
Proof. by rewrite simulate_losses, length_map, length_seq. Qed.

Lemma simulate_losses_lookup (ret : R) (rng : nat -> draw) (n k : nat) :
  (k < n)%nat ->
  portfolio_losses (simulate ret rng n) !! k = Some (ceded_total ret (rng k)).
Proof.
  intros Hk. rewrite simulate_losses, list_lookup_fmap.
  by rewrite lookup_seq_lt.
Qed.

Lemma ceded_lookup (ret : R) (d : draw) (i : nat) :
  ceded ret d !! i = (fun s => Rmax 0 (s - ret)) <$> (sizes d !! i).
Proof.
  unfold ceded, np_maximum, np_sub_scalar.
  rewrite !list_lookup_fmap. by destruct (sizes d !! i).
Qed.

(** C1. Layering step.  Within a trial the ceded amount of the claim of
    size [s] is [max(0, s - R)]; the entry the [k]-th trial appends to the
    loss distribution is the sum of these amounts over the trial's claim
    sizes, and 0 when the trial has no claims. *)
Theorem layering_step (ret : R) (rng : nat -> draw) (n k : nat) :
  (k < n)%nat ->
  (forall i s, sizes (rng k) !! i = Some s ->
               ceded ret (rng k) !! i = Some (Rmax 0 (s - ret))) /\
  ((n_claims (rng k) > 0)%Z ->
   portfolio_losses (simulate ret rng n) !! k
   = Some (np_sum (map (fun s => Rmax 0 (s - ret)) (sizes (rng k))))) /\
  ((n_claims (rng k) = 0)%Z ->
   portfolio_losses (simulate ret rng n) !! k = Some 0%R).
Proof.
  intros Hk. split; [|split].
  - intros i s Hs. by rewrite ceded_lookup, Hs.
  - intros Hn. rewrite simulate_losses_lookup by done.
    unfold ceded_total. rewrite decide_True by done.
    unfold ceded, np_maximum, np_sub_scalar.
    by rewrite map_map.
  - intros Hn. rewrite simulate_losses_lookup by done.
    unfold ceded_total. rewrite decide_False by lia. done.
Qed.

Lemma layering_step_witness :
  portfolio_losses (simulate 25 (two_years 27) 2) !! 1%nat
  = Some (np_sum (map (fun s => Rmax 0 (s - 25)) [27%R])).
Proof.
  apply (layering_step 25 (two_years 27) 2 1); [lia | reflexivity].
Defined.

(** ** Distribution parameterizer *)

Lemma sigma2_arg_ge_1 (mean std : R) :
  mean <> 0%R -> (1 <= 1 + std ^ 2 / mean ^ 2)%R.
Proof.
  intros Hm.
  assert (0 < mean ^ 2)%R.
  { pose proof (pow2_ge_0 mean). pose proof (pow_nonzero mean 2 Hm). lra. }
  assert (0 <= std ^ 2)%R by apply pow2_ge_0.
  assert (0 <= std ^ 2 / mean ^ 2)%R.
  { apply Rmult_le_pos; [done|]. left. by apply Rinv_0_lt_compat. }
  lra.
Qed.

Lemma sigma2_nonneg (mean std : R) :
  mean <> 0%R -> (0 <= ln (1 + std ^ 2 / mean ^ 2))%R.
Proof.
  intros Hm. pose proof (sigma2_arg_ge_1 mean std Hm) as H1.
  destruct (Req_dec (1 + std ^ 2 / mean ^ 2) 1) as [->|Hne].
  - rewrite ln_1. lra.
  - left. rewrite <- ln_1. apply ln_increasing; lra.
Qed.

Lemma np_log_pos (x : R) : (0 < x)%R -> np_log x = Fin (ln x).
Proof. intros Hx. unfold np_log. by rewrite decide_True. Qed.


Lemma lognormal_params_unfold (mean std : R) :
  mean <> 0%R ->
  lognormal_params mean std
  = Ok (np_sub (np_log mean) (Fin (ln (1 + std ^ 2 / mean ^ 2) / 2)),
        Fin (sqrt (ln (1 + std ^ 2 / mean ^ 2)))).
Proof.
  intros Hm. unfold lognormal_params, py_truediv.
  assert (mean ^ 2 <> 0)%R by (apply pow_nonzero; done).
  rewrite decide_False by done. cbn [mbind result_bind mret result_ret].
  pose proof (sigma2_arg_ge_1 mean std Hm).
  pose proof (sigma2_nonneg mean std Hm).
  rewrite (np_log_pos (1 + _)) by lra.
  cbn [np_sqrt np_truediv].
  rewrite (decide_True (P := (0 <= _)%R)) by done.
  rewrite (decide_False (P := (2 = 0)%R)) by lra.
  done.
Qed.



(** Both scenarios of the source, the current year and the year with 8%
    inflation, get finite parameters. *)
Lemma source_scenarios_finite :
  (exists mu sigma, lognormal_params MEAN STD = Ok (Fin mu, Fin sigma)) /\
  (exists mu sigma,
     lognormal_params (MEAN * 1.08) (STD * 1.08) = Ok (Fin mu, Fin sigma)).
Proof.
  unfold MEAN, STD. split.
  - rewrite lognormal_params_unfold by lra.
    rewrite np_log_pos by lra. by eexists _, _.
  - rewrite lognormal_params_unfold by lra.
    rewrite np_log_pos by lra. by eexists _, _.
Qed.



(** ** Bookkeeping: the two counters *)

Lemma np_count_bounds (mask : list bool) :
  (0 <= np_count mask <= Z.of_nat (length mask))%Z.
Proof.
  unfold np_count, np_sum_int.
  induction mask as [|[] mask IH]; cbn [map foldr length]; lia.
Qed.

Lemma np_count_gt_antitone (a : list R) (c1 c2 : R) :
  (c1 <= c2)%R ->
  (np_count (np_gt_scalar a c2) <= np_count (np_gt_scalar a c1))%Z.
Proof.
  intros Hc. unfold np_count, np_sum_int, np_gt_scalar.
  induction a as [|x a IH]; cbn [map foldr]; [lia|].
  destruct (decide (x > c2)%R) as [H2|H2].
  - rewrite (bool_decide_eq_true_2 _ H2).
    rewrite bool_decide_eq_true_2 by lra. lia.
  - rewrite (bool_decide_eq_false_2 _ H2).
    destruct (bool_decide (x > c1)%R); lia.
Qed.

Lemma simulate_counters_shape (ret : R) (rng : nat -> draw) (k : nat) :
  counters_shape (simulate ret rng k).
Proof.
  induction k as [|k IH]; [by apply counters_untouched|].
  cbn [simulate]. unfold trial.
  pose proof (np_count_bounds (np_gt_scalar (sizes (rng k)) ret)) as Hc.
  case_decide as Hn.
  - apply (counters_numpy _
             (counter_value (reinsurer_hits (simulate ret rng k))
              + np_count (np_gt_scalar (sizes (rng k)) ret))
             (counter_value (total_claims (simulate ret rng k))
              + n_claims (rng k))); [done|done| |];
      destruct IH as [Hh Ht|h t Hh Ht ? ?]; rewrite ?Hh, ?Ht; cbn; lia.
  - destruct IH as [Hh Ht|h t Hh Ht ? ?].
    + by apply counters_untouched.
    + by eapply counters_numpy.
Qed.

(** The same draws under two retention levels: the totals agree and the
    higher level counts no more hits. *)
Lemma simulate_counters_monotone (rng : nat -> draw) (k : nat) (r1 r2 : R) :
  (r1 <= r2)%R ->
  total_claims (simulate r1 rng k) = total_claims (simulate r2 rng k) /\
  (counter_value (reinsurer_hits (simulate r2 rng k))
   <= counter_value (reinsurer_hits (simulate r1 rng k)))%Z.
Proof.
  intros Hr. induction k as [|k [IHt IHh]]; [done|].
  cbn [simulate]. unfold trial.
  pose proof (np_count_gt_antitone (sizes (rng k)) r1 r2 Hr).
  case_decide; cbn; [|done].
  rewrite IHt. split; [done | lia].
Qed.

Lemma simulate_hits_le_total (ret : R) (rng : nat -> draw) (k : nat) :
  (forall i, (i < k)%nat -> (n_claims (rng i) > 0)%Z ->
             length (sizes (rng i)) = Z.to_nat (n_claims (rng i))) ->
  (counter_value (reinsurer_hits (simulate ret rng k))
   <= counter_value (total_claims (simulate ret rng k)))%Z.
Proof.
  intros Hlen. induction k as [|k IH]; [done|].
  cbn [simulate]. unfold trial.
  pose proof (np_count_bounds (np_gt_scalar (sizes (rng k)) ret)) as Hc.
  assert (length (np_gt_scalar (sizes (rng k)) ret) = length (sizes (rng k)))
    as Hl by apply length_map.
  specialize (Hlen k) as Hk.
  case_decide as Hn; cbn.
  - rewrite Hl, Hk in Hc by (done || lia).
    assert (counter_value (reinsurer_hits (simulate ret rng k))
            <= counter_value (total_claims (simulate ret rng k)))%Z
      by (apply IH; intros; apply Hlen; (done || lia)).
    lia.
  - apply IH. intros; apply Hlen; (done || lia).
Qed.

Lemma prob_untouched (st : loop_state) :
  reinsurer_hits st = PyInt 0 -> total_claims st = PyInt 0 ->
  prob_reinsurer_pays st = Raise ZeroDivisionError.
Proof. intros Hh Ht. unfold prob_reinsurer_pays. by rewrite Hh, Ht. Qed.

Lemma prob_numpy (st : loop_state) (h t : Z) :
  reinsurer_hits st = NpInt64 h -> total_claims st = NpInt64 t ->
  (0 < t)%Z ->
  prob_reinsurer_pays st = Ok (Fin (IZR h / IZR t)).
Proof.
  intros Hh Ht Hpos. unfold prob_reinsurer_pays. rewrite Hh, Ht.
  cbn [counter_truediv counter_value np_truediv].
  rewrite decide_False; [done|].
  apply not_0_IZR. lia.
Qed.

Lemma ratio_in_unit_interval (h t : Z) :
  (0 <= h <= t)%Z -> (0 < t)%Z -> (0 <= IZR h / IZR t <= 1)%R.
Proof.
  intros [H0 Hle] Ht.
  assert (0 < IZR t)%R by (apply IZR_lt; done).
  assert (0 <= IZR h)%R by (apply IZR_le; done).
  assert (IZR h <= IZR t)%R by (apply IZR_le; done).
  split.
  - apply Rmult_le_pos; [done|]. left. by apply Rinv_0_lt_compat.
  - apply (Rmult_le_reg_r (IZR t)); [done|].
    unfold Rdiv. rewrite Rmult_assoc, Rinv_l by lra. lra.
Qed.

(** C10. After every trial the running count of reinsurer-triggering claims
    lies between 0 and the running total of claims observed; hence, when
    that total is positive, P(Reinsurer Pays) is a number of [[0, 1]]. *)
Theorem hits_at_most_total (cfg : config) (ret : R) (rng : nat -> draw)
    (k : nat) :
  (forall i, (i < k)%nat -> valid_draw cfg (rng i)) ->
  (0 <= counter_value (reinsurer_hits (simulate ret rng k))
     <= counter_value (total_claims (simulate ret rng k)))%Z /\
  ((0 < counter_value (total_claims (simulate ret rng k)))%Z ->
   exists p : R,
     prob_reinsurer_pays (simulate ret rng k) = Ok (Fin p) /\
     (0 <= p <= 1)%R).
Proof.
  intros Hvalid.
  assert (counter_value (reinsurer_hits (simulate ret rng k))
          <= counter_value (total_claims (simulate ret rng k)))%Z as Hle.
  { apply simulate_hits_le_total. intros i Hi Hn.
    destruct (Hvalid i Hi) as [_ Hs]. by destruct (Hs Hn). }
  destruct (simulate_counters_shape ret rng k) as [Hh Ht|h t Hh Ht H0 Hpos].
  - rewrite Hh, Ht. cbn. split; [lia | lia].
  - rewrite Hh, Ht in *. cbn in *. split; [lia|]. intros _.
    exists (IZR h / IZR t)%R. split.
    + by apply prob_numpy.
    + apply ratio_in_unit_interval; lia.
Qed.

(** C6. When no claim was observed over all the trials of a retention
    level, the division that computes P(Reinsurer Pays) raises: both
    counters are still Python integers and Python's [0 / 0] is an error, not
    a NaN and not 0.  The whole evaluation of the level fails with it. *)
Theorem no_claims_division_raises (cfg : config) (ret : Z)
    (rng : nat -> draw) :
  counter_value (total_claims (simulate (IZR ret) rng (N_SIM cfg))) = 0%Z ->
  prob_reinsurer_pays (simulate (IZR ret) rng (N_SIM cfg))
  = Raise ZeroDivisionError /\
  ((0 < N_SIM cfg)%nat ->
   retention_report cfg ret rng = Raise ZeroDivisionError).
Proof.
  intros Hzero.
  assert (prob_reinsurer_pays (simulate (IZR ret) rng (N_SIM cfg))
          = Raise ZeroDivisionError) as Hp.
  { destruct (simulate_counters_shape (IZR ret) rng (N_SIM cfg))
      as [Hh Ht|h t Hh Ht H0 Hpos].
    - by apply prob_untouched.
    - rewrite Ht in Hzero. cbn in Hzero. lia. }
  split; [done|]. intros _.
  unfold retention_report. by rewrite Hp.
Qed.

(** ** Monotonicity in the retention level *)

Lemma np_sum_map_le {A : Type} (f g : A -> R) (l : list A) :
  (forall x, (f x <= g x)%R) -> (np_sum (map f l) <= np_sum (map g l))%R.
Proof.
  intros Hfg. unfold np_sum.
  induction l as [|x l IH]; cbn [map foldr]; [lra|].
  specialize (Hfg x). lra.
Qed.

Lemma excess_antitone (s r1 r2 : R) :
  (r1 <= r2)%R -> (Rmax 0 (s - r2) <= Rmax 0 (s - r1))%R.
Proof. intros Hr. apply Rle_max_compat_l. lra. Qed.

Lemma ceded_total_antitone (d : draw) (r1 r2 : R) :
  (r1 <= r2)%R -> (ceded_total r2 d <= ceded_total r1 d)%R.
Proof.
  intros Hr. unfold ceded_total. case_decide; [|lra].
  unfold ceded, np_maximum, np_sub_scalar. rewrite !map_map.
  apply np_sum_map_le. intros s. by apply excess_antitone.
Qed.

Lemma np_mean_nonempty (a : list R) :
  a <> [] -> np_mean a = Fin (np_sum a / INR (length a)).
Proof. by destruct a. Qed.

Lemma simulate_losses_nonempty (ret : R) (rng : nat -> draw) (k : nat) :
  (0 < k)%nat -> portfolio_losses (simulate ret rng k) <> [].
Proof.
  intros Hk Hnil. apply (f_equal length) in Hnil.
  rewrite simulate_losses_length in Hnil. cbn in Hnil. lia.
Qed.

(** C3. On the same simulated claim counts and claim sizes, raising the
    retention level from [r1] to [r2] does not raise the Expected Ceded
    Loss, and does not raise P(Reinsurer Pays): either both divisions give a
    number, the one at [r2] being the smaller, or no claim was observed and
    both raise the same error. *)
Theorem retention_monotone (rng : nat -> draw) (n : nat) (r1 r2 : R) :
  (0 < n)%nat -> (r1 <= r2)%R ->
  (exists m1 m2 : R,
     np_mean (portfolio_losses (simulate r1 rng n)) = Fin m1 /\
     np_mean (portfolio_losses (simulate r2 rng n)) = Fin m2 /\
     (m2 <= m1)%R) /\
  match prob_reinsurer_pays (simulate r1 rng n),
        prob_reinsurer_pays (simulate r2 rng n) with
  | Ok (Fin p1), Ok (Fin p2) => (p2 <= p1)%R
  | Raise e1, Raise e2 =>
      e1 = e2 /\ counter_value (total_claims (simulate r1 rng n)) = 0%Z
  | _, _ => False
  end.
Proof.
  intros Hn Hr. split.
  - eexists _, _.
    rewrite !np_mean_nonempty by (by apply simulate_losses_nonempty).
    split; [done|split; [done|]].
    rewrite !simulate_losses_length.
    apply Rmult_le_compat_r.
    + left. apply Rinv_0_lt_compat, lt_0_INR. lia.
    + rewrite !simulate_losses. apply np_sum_map_le.
      intros i. by apply ceded_total_antitone.
  - destruct (simulate_counters_monotone rng n r1 r2 Hr) as [Htot Hhits].
    destruct (simulate_counters_shape r1 rng n) as [Hh1 Ht1|h1 t1 Hh1 Ht1 ? ?];
    destruct (simulate_counters_shape r2 rng n) as [Hh2 Ht2|h2 t2 Hh2 Ht2 ? ?];
      try (rewrite Ht1, Ht2 in Htot; discriminate).
    + rewrite !prob_untouched by done. by rewrite Ht1.
    + rewrite (prob_numpy _ h1 t1), (prob_numpy _ h2 t2) by done.
      rewrite Ht1, Ht2 in Htot. injection Htot as ->.
      rewrite Hh1, Hh2 in Hhits. cbn in Hhits.
      apply Rmult_le_compat_r.
      * left. apply Rinv_0_lt_compat, IZR_lt. lia.
      * by apply IZR_le.
Qed.

(** ** Tail metrics *)

(** [np_sort] returns its argument in ascending order. *)
Lemma np_sort_sorted (a : list R) :
  StronglySorted Rle (np_sort a) /\ np_sort a ≡ₚ a.
Proof.
  split; [apply StronglySorted_merge_sort; apply _|].
  apply merge_sort_Permutation.
Qed.

Lemma np_sort_length (a : list R) : length (np_sort a) = length a.
Proof. unfold np_sort. by rewrite merge_sort_Permutation. Qed.


Lemma nth_elem_of (l : list R) (i : nat) :
  (i < length l)%nat -> nth i l 0%R ∈ l.
Proof. intros Hi. apply list_elem_of_In, nth_In. done. Qed.

Lemma percentile_index_bounds (q n : nat) :
  (q <= 100)%nat -> (0 < n)%nat ->
  (q * (n - 1) / 100 < n)%nat /\
  (Nat.min (q * (n - 1) / 100 + 1) (n - 1) < n)%nat.
Proof.
  intros Hq Hn. split; [|lia].
  apply Nat.Div0.div_lt_upper_bound. nia.
Qed.

Lemma percentile_gamma_bounds (k : nat) :
  (0 <= INR (k mod 100) / 100 < 1)%R.
Proof.
  assert (k mod 100 < 100)%nat as Hlt by (apply Nat.mod_upper_bound; lia).
  apply lt_INR in Hlt. pose proof (pos_INR (k mod 100)).
  replace (INR 100) with 100%R in Hlt by (simpl; lra).
  lra.
Qed.






(** ** A portfolio that cannot claim *)

Lemma np_sum_int_zeros (a : list Z) :
  Forall (fun c => c = 0%Z) a -> np_sum_int a = 0%Z.
Proof.
  unfold np_sum_int. induction 1 as [|c a -> _ IH]; [done|].
  cbn [foldr]. lia.
Qed.

Lemma np_sum_zeros (a : list R) :
  Forall (fun x => x = 0%R) a -> np_sum a = 0%R.
Proof.
  unfold np_sum. induction 1 as [|x a -> _ IH]; [done|].
  cbn [foldr]. lra.
Qed.

Lemma nth_zeros (a : list R) (i : nat) :
  Forall (fun x => x = 0%R) a -> nth i a 0%R = 0%R.
Proof.
  intros Ha. revert i.
  induction Ha as [|x a -> _ IH]; intros [|i]; cbn; auto.
Qed.

Lemma np_percentile_zeros (a : list R) (q : nat) :
  Forall (fun x => x = 0%R) a -> np_percentile a q = 0%R.
Proof.
  intros Ha.
  assert (Forall (fun x => x = 0%R) (np_sort a)) as Hs.
  { unfold np_sort. by rewrite merge_sort_Permutation. }
  unfold np_percentile. rewrite !nth_zeros by done. lra.
Qed.

Lemma np_select_ge_zeros (a : list R) :
  Forall (fun x => x = 0%R) a -> np_select_ge a 0 = a.
Proof.
  unfold np_select_ge. induction 1 as [|x a -> _ IH]; [done|].
  rewrite filter_cons_True by lra. by rewrite IH.
Qed.

Lemma np_mean_zeros (a : list R) :
  a <> [] -> Forall (fun x => x = 0%R) a -> np_mean a = Fin 0.
Proof.
  intros Hne Ha. rewrite np_mean_nonempty by done.
  rewrite np_sum_zeros by done. f_equal. unfold Rdiv. lra.
Qed.

Lemma ceded_total_no_claims (ret : R) (d : draw) :
  n_claims d = 0%Z -> ceded_total ret d = 0%R.
Proof. intros Hn. unfold ceded_total. by rewrite decide_False by lia. Qed.

(** C9. With [CLAIM_PROB = 0] every trial records a ceded loss of exactly 0,
    and the Expected Ceded Loss, VaR 99% and TVaR 99% of the level are 0,
    whatever the retention level. *)
Theorem zero_claim_probability (cfg : config) (ret : R) (rng : nat -> draw) :
  CLAIM_PROB cfg = 0%R ->
  (0 < N_SIM cfg)%nat ->
  (forall i, (i < N_SIM cfg)%nat ->
     binomial_support (CLAIM_PROB cfg) (N_POLICIES cfg) (claims (rng i))) ->
  (forall k, (k < N_SIM cfg)%nat ->
     portfolio_losses (simulate ret rng (N_SIM cfg)) !! k = Some 0%R) /\
  np_mean (portfolio_losses (simulate ret rng (N_SIM cfg))) = Fin 0 /\
  VaR_99 (portfolio_losses (simulate ret rng (N_SIM cfg))) = 0%R /\
  TVaR_99 (portfolio_losses (simulate ret rng (N_SIM cfg))) = Fin 0.
Proof.
  intros Hp Hn Hsupp.
  assert (forall i, (i < N_SIM cfg)%nat -> ceded_total ret (rng i) = 0%R)
    as Hzero.
  { intros i Hi. apply ceded_total_no_claims, np_sum_int_zeros.
    destruct (Hsupp i Hi) as (_ & _ & H0 & _). by apply H0. }
  assert (Forall (fun x => x = 0%R)
            (portfolio_losses (simulate ret rng (N_SIM cfg)))) as Hall.
  { rewrite simulate_losses. apply Forall_fmap, Forall_forall.
    intros i Hi. apply elem_of_seq in Hi. cbn. apply Hzero. lia. }
  pose proof (simulate_losses_nonempty ret rng (N_SIM cfg) Hn) as Hne.
  split; [|split; [|split]].
  - intros k Hk. rewrite simulate_losses_lookup by done.
    by rewrite Hzero.
  - by apply np_mean_zeros.
  - by apply np_percentile_zeros.
  - unfold TVaR_99, VaR_99. rewrite np_percentile_zeros by done.
    rewrite np_select_ge_zeros by done. by apply np_mean_zeros.
Qed.

(** ** Premium lookup *)

(** The premium table of the source quotes every retention level of the
    source. *)
Lemma source_premiums_cover_retentions (ret : Z) :
  ret ∈ RETENTIONS source_config ->
  exists premium, getitem (PREMIUMS source_config) ret = Ok premium.
Proof.
  cbn [RETENTIONS PREMIUMS source_config]. unfold getitem.
  intros [->|[->|[]%elem_of_nil]%elem_of_cons]%elem_of_cons.
  - rewrite lookup_insert_eq. by eexists.
  - rewrite lookup_insert_ne by done. rewrite lookup_singleton_eq. by eexists.
Qed.

(** C8. For a retention level absent from the premium table the Value for
    Money computation raises at the lookup [PREMIUMS[R]], whatever the
    Expected Ceded Loss; the evaluation of the level returns no metrics, it
    ends in an exception, and in that of the lookup whenever P(Reinsurer
    Pays) was computed. *)
Theorem missing_premium_raises (cfg : config) (ret : Z) (rng : nat -> draw) :
  PREMIUMS cfg !! ret = None ->
  (forall m, value_for_money_of (PREMIUMS cfg) ret m = Raise KeyError) /\
  (exists e, retention_report cfg ret rng = Raise e) /\
  (forall p, prob_reinsurer_pays (simulate (IZR ret) rng (N_SIM cfg)) = Ok p ->
             retention_report cfg ret rng = Raise KeyError).
Proof.
  intros Hmiss.
  assert (forall m, value_for_money_of (PREMIUMS cfg) ret m = Raise KeyError)
    as Hv.
  { intros m. unfold value_for_money_of, getitem. by rewrite Hmiss. }
  split; [done|]. unfold retention_report. split.
  - destruct (prob_reinsurer_pays _) as [p|e]; cbn.
    + rewrite Hv. by eexists.
    + by eexists.
  - intros p ->. cbn. by rewrite Hv.
Qed.

(** ** Volatility *)

Lemma squared_deviations_nonneg (l : list R) : (0 <= squared_deviations l)%R.
Proof.
  unfold squared_deviations. generalize (mean_of l). intros m.
  unfold np_sum. induction l as [|x l IH]; cbn [map foldr]; [lra|].
  pose proof (pow2_ge_0 (x - m)). lra.
Qed.

Lemma np_std_population (l : list R) :
  l <> [] -> np_std l = Fin (population_std l).
Proof.
  intros Hl. destruct l as [|x0 l0] eqn:El; [done|]. rewrite <- El in *.
  assert (np_std l
          = np_sqrt (np_mean (map (fun x => (Rabs (x - mean_of l) ^ 2)%R) l)))
    as -> by (by rewrite El).
  rewrite np_mean_nonempty by (rewrite El; done).
  rewrite length_map.
  assert (map (fun x => (Rabs (x - mean_of l) ^ 2)%R) l
          = map (fun x => ((x - mean_of l) ^ 2)%R) l) as ->.
  { apply map_ext. intros x. by rewrite pow2_abs. }
  fold (squared_deviations l). cbn [np_sqrt].
  rewrite decide_True; [done|].
  apply Rmult_le_pos; [apply squared_deviations_nonneg|].
  left. apply Rinv_0_lt_compat, lt_0_INR. rewrite El. cbn. lia.
Qed.

Lemma retention_report_fields (cfg : config) (ret : Z) (rng : nat -> draw)
    (m : metrics) :
  retention_report cfg ret rng = Ok m ->
  mean_loss m = np_mean (portfolio_losses (simulate (IZR ret) rng (N_SIM cfg)))
  /\ std_loss m = np_std (portfolio_losses (simulate (IZR ret) rng (N_SIM cfg)))
  /\ var_99 m = VaR_99 (portfolio_losses (simulate (IZR ret) rng (N_SIM cfg)))
  /\ tvar_99 m = TVaR_99 (portfolio_losses (simulate (IZR ret) rng (N_SIM cfg)))
  /\ prob_reinsurer_pays (simulate (IZR ret) rng (N_SIM cfg))
     = Ok (prob_reinsurer m)
  /\ value_for_money_of (PREMIUMS cfg) ret (mean_loss m)
     = Ok (value_for_money m).
Proof.
  unfold retention_report.
  destruct (prob_reinsurer_pays _) as [p|e]; cbn; [|done].
  destruct (value_for_money_of _ _ _) as [v|e] eqn:Hv; cbn; [|done].
  intros [= <-]. cbn. by rewrite Hv.
Qed.

Lemma retention_report_ok (cfg : config) (ret : Z) (rng : nat -> draw)
    (premium : R) :
  (0 < counter_value (total_claims (simulate (IZR ret) rng (N_SIM cfg))))%Z ->
  PREMIUMS cfg !! ret = Some premium ->
  exists m, retention_report cfg ret rng = Ok m.
Proof.
  intros Ht Hp. unfold retention_report.
  destruct (simulate_counters_shape (IZR ret) rng (N_SIM cfg))
    as [Hh0 Ht0|h t Hh0 Ht0 ? ?].
  - rewrite Ht0 in Ht. cbn in Ht. lia.
  - rewrite (prob_numpy _ h t) by done. cbn.
    unfold value_for_money_of, getitem. rewrite Hp. cbn. by eexists.
Qed.

(** C5, as the code has it.  The reported Risk (Std Dev) is the population
    standard deviation of the loss distribution: the square root of the
    mean squared deviation from the mean, with denominator [N_SIM]. *)
Theorem risk_is_population_std (cfg : config) (ret : Z) (rng : nat -> draw)
    (m : metrics) :
  (0 < N_SIM cfg)%nat ->
  retention_report cfg ret rng = Ok m ->
  std_loss m
  = Fin (population_std (portfolio_losses (simulate (IZR ret) rng (N_SIM cfg))))
  /\ length (portfolio_losses (simulate (IZR ret) rng (N_SIM cfg))) = N_SIM cfg.
Proof.
  intros Hn Hm. apply retention_report_fields in Hm as (_ & -> & _).
  split; [|apply simulate_losses_length].
  apply np_std_population. by apply simulate_losses_nonempty.
Qed.

(** ** The two-year example *)

Lemma two_years_losses :
  portfolio_losses (simulate 25 (two_years 27) 2) = [0%R; 2%R].
Proof.
  rewrite simulate_losses. cbn [seq map two_years].
  unfold ceded_total.
  rewrite decide_False by (cbn; lia). rewrite decide_True by (cbn; lia).
  cbn. f_equal. f_equal. rewrite Rmax_right by lra. lra.
Qed.

Lemma two_years_total :
  counter_value (total_claims (simulate 25 (two_years 27) 2)) = 1%Z.
Proof. reflexivity. Qed.

Lemma two_years_valid (i : nat) : valid_draw toy_config (two_years 27 i).
Proof.
  unfold valid_draw, binomial_support, lognormal_support.
  destruct i as [|i]; cbn.
  - repeat split; try (intros; lra); try lia.
    apply Forall_singleton. by left.
  - repeat split; try (intros; lra); try lia.
    + apply Forall_singleton. by right.
    + apply Forall_singleton. lra.
Qed.

Lemma two_years_report :
  exists m, retention_report toy_config 25 (two_years 27) = Ok m.
Proof.
  apply (retention_report_ok toy_config 25 (two_years 27) 48.5).
  - cbn [N_SIM toy_config]. rewrite two_years_total. lia.
  - apply lookup_singleton_eq.
Qed.

Lemma population_std_two_years : population_std [0%R; 2%R] = 1%R.
Proof.
  unfold population_std, squared_deviations, mean_of. cbn.
  match goal with |- sqrt ?x = _ => replace x with 1%R by field end.
  apply sqrt_1.
Qed.

Lemma sample_std_two_years : sample_std [0%R; 2%R] = sqrt 2.
Proof.
  unfold sample_std, squared_deviations, mean_of. cbn. f_equal. field.
Qed.

Lemma sqrt_2_neq_1 : sqrt 2 <> 1%R.
Proof.
  intros H. pose proof (sqrt_sqrt 2 ltac:(lra)) as Hs.
  rewrite H in Hs. lra.
Qed.

(** C5 fails as stated: over the losses 0 and 2 the engine reports 1, and
    the estimator with denominator [N_SIM - 1] gives the square root of 2. *)
Lemma risk_is_not_sample_std :
  exists m,
    retention_report toy_config 25 (two_years 27) = Ok m /\
    std_loss m = Fin 1 /\
    std_loss m
    <> Fin (sample_std
              (portfolio_losses (simulate 25 (two_years 27) (N_SIM toy_config)))).
Proof.
  destruct two_years_report as [m Hm]. exists m. split; [done|].
  apply retention_report_fields in Hm as (_ & Hstd & _).
  cbn [N_SIM toy_config] in *. rewrite two_years_losses in *.
  rewrite np_std_population, population_std_two_years in Hstd by done.
  split; [done|]. rewrite Hstd, sample_std_two_years.
  intros [= H]. by apply sqrt_2_neq_1.
Qed.

(** ** Instances of the statements on the examples *)

Lemma retention_monotone_witness :
  (exists m1 m2 : R,
     np_mean (portfolio_losses (simulate 25 (two_years 27) 2)) = Fin m1 /\
     np_mean (portfolio_losses (simulate 30 (two_years 27) 2)) = Fin m2 /\
     (m2 <= m1)%R) /\
  match prob_reinsurer_pays (simulate 25 (two_years 27) 2),
        prob_reinsurer_pays (simulate 30 (two_years 27) 2) with
  | Ok (Fin p1), Ok (Fin p2) => (p2 <= p1)%R
  | Raise e1, Raise e2 =>
      e1 = e2
      /\ counter_value (total_claims (simulate 25 (two_years 27) 2)) = 0%Z
  | _, _ => False
  end.
Proof.
  apply (retention_monotone (two_years 27) 2 25 30); [lia | lra].
Defined.


Lemma risk_is_population_std_witness :
  exists m,
    retention_report toy_config 25 (two_years 27) = Ok m /\
    std_loss m
    = Fin (population_std (portfolio_losses (simulate 25 (two_years 27) 2))).
Proof.
  destruct two_years_report as [m Hm]. exists m. split; [exact Hm|].
  apply (risk_is_population_std toy_config 25 (two_years 27) m);
    [cbn; lia | exact Hm].
Defined.

Lemma no_claims_division_raises_witness :
  prob_reinsurer_pays (simulate 25 quiet_years 2) = Raise ZeroDivisionError /\
  retention_report idle_config 25 quiet_years = Raise ZeroDivisionError.
Proof.
  destruct (no_claims_division_raises idle_config 25 quiet_years) as [Hp Hr];
    [reflexivity|].
  split; [exact Hp | apply Hr; cbn; lia].
Defined.


Lemma missing_premium_raises_witness :
  value_for_money_of (PREMIUMS toy_config) 30 (Fin 1) = Raise KeyError /\
  retention_report toy_config 30 (two_years 27) = Raise KeyError.
Proof.
  destruct (missing_premium_raises toy_config 30 (two_years 27))
    as (Hv & _ & Hr); [by apply lookup_singleton_ne|].
  split; [apply Hv|].
  destruct (simulate_counters_shape 30 (two_years 27) 2)
    as [_ Ht|h t Hh Ht _ Hpos].
  - discriminate Ht.
  - apply (Hr (Fin (IZR h / IZR t))). by apply prob_numpy.
Defined.

Lemma zero_claim_probability_witness :
  np_mean (portfolio_losses (simulate 25 quiet_years 2)) = Fin 0 /\
  VaR_99 (portfolio_losses (simulate 25 quiet_years 2)) = 0%R /\
  TVaR_99 (portfolio_losses (simulate 25 quiet_years 2)) = Fin 0.
Proof.
  apply (zero_claim_probability idle_config 25 quiet_years).
  - reflexivity.
  - cbn. lia.
  - intros i _. unfold binomial_support. cbn.
    repeat split; try (intros; lra).
    + apply Forall_singleton. by left.
    + intros _. by apply Forall_singleton.
Defined.

Lemma hits_at_most_total_witness :
  (0 <= counter_value (reinsurer_hits (simulate 25 (two_years 27) 2))
     <= counter_value (total_claims (simulate 25 (two_years 27) 2)))%Z /\
  exists p : R,
    prob_reinsurer_pays (simulate 25 (two_years 27) 2) = Ok (Fin p) /\
    (0 <= p <= 1)%R.
Proof.
  destruct (hits_at_most_total toy_config 25 (two_years 27) 2) as [Hb Hp].
  - intros i _. apply two_years_valid.
  - split; [exact Hb|]. apply Hp. rewrite two_years_total. lia.
Defined.

(** ** More on the distribution parameterizer *)







(** ** More on the simulation loop *)

Lemma np_sum_nonneg (a : list R) :
  Forall (fun x => (0 <= x)%R) a -> (0 <= np_sum a)%R.
Proof.
  unfold np_sum. induction 1 as [|x a Hx _ IH]; cbn [foldr]; lra.
Qed.

Lemma ceded_nonneg (ret : R) (d : draw) :
  Forall (fun x => (0 <= x)%R) (ceded ret d).
Proof.
  unfold ceded, np_maximum, np_sub_scalar. rewrite map_map.
  apply Forall_fmap, Forall_forall. intros s _. cbn. apply Rmax_l.
Qed.

Lemma ceded_total_nonneg (ret : R) (d : draw) : (0 <= ceded_total ret d)%R.
Proof.
  unfold ceded_total. case_decide; [|lra].
  apply np_sum_nonneg, ceded_nonneg.
Qed.

Lemma ceded_total_le_gross (ret : R) (d : draw) :
  (0 <= ret)%R -> Forall (fun s => (0 <= s)%R) (sizes d) ->
  (ceded_total ret d <= gross_total d)%R.
Proof.
  intros Hr Hs. unfold ceded_total, gross_total. case_decide; [|lra].
  unfold ceded, np_maximum, np_sub_scalar, np_sum. rewrite map_map.
  induction Hs as [|s l Hs _ IH]; cbn [map foldr]; [lra|].
  assert (Rmax 0 (s - ret) <= s)%R by (apply Rmax_lub; lra). lra.
Qed.

(** X4. The loss a trial records is never negative, and for a retention
    level [R >= 0] and non-negative claim sizes it is at most the trial's
    gross claims: the reinsurer pays neither less than nothing nor more
    than was claimed. *)
Theorem recorded_loss_bounds (ret : R) (rng : nat -> draw) (n k : nat) :
  (k < n)%nat ->
  exists x : R,
    portfolio_losses (simulate ret rng n) !! k = Some x /\
    (0 <= x)%R /\
    ((0 <= ret)%R -> Forall (fun s => (0 <= s)%R) (sizes (rng k)) ->
     (x <= gross_total (rng k))%R).
Proof.
  intros Hk. exists (ceded_total ret (rng k)).
  split; [by apply simulate_losses_lookup|].
  split; [apply ceded_total_nonneg|]. apply ceded_total_le_gross.
Qed.

Lemma recorded_loss_bounds_witness :
  exists x : R,
    portfolio_losses (simulate 25 (two_years 27) 2) !! 1%nat = Some x /\
    (0 <= x)%R /\ (x <= gross_total (two_years 27 1))%R.
Proof.
  destruct (recorded_loss_bounds 25 (two_years 27) 2 1) as (x & Hx & H0 & Hg);
    [lia|].
  exists x. split; [exact Hx|]. split; [exact H0|]. apply Hg; [lra|].
  apply Forall_singleton. lra.
Defined.

Lemma trial_hits_zero_iff (ret : R) (a : list R) :
  np_count (np_gt_scalar a ret) = 0%Z
  <-> np_sum (np_maximum 0 (np_sub_scalar a ret)) = 0%R.
Proof.
  pose proof (fun b => np_count_bounds (np_gt_scalar b ret)) as Hc.
  assert (forall b, 0 <= np_sum (np_maximum 0 (np_sub_scalar b ret)))%R as Hs.
  { intros b. apply (np_sum_nonneg (ceded ret {| claims := []; sizes := b |})),
      ceded_nonneg. }
  induction a as [|s a IH]; [done|].
  specialize (Hc a) as Hca. specialize (Hs a) as Hsa.
  unfold np_count, np_sum_int, np_sum, np_gt_scalar, np_maximum, np_sub_scalar
    in *.
  cbn [map foldr] in *.
  destruct (decide (s > ret)%R) as [Hgt|Hle].
  - rewrite (bool_decide_eq_true_2 _ Hgt).
    rewrite Rmax_right by lra. split; intros; [lia | lra].
  - rewrite (bool_decide_eq_false_2 _ Hle).
    rewrite Rmax_left by lra. rewrite Rplus_0_l, Z.add_0_l. done.
Qed.

Lemma simulate_hits_nonneg (ret : R) (rng : nat -> draw) (k : nat) :
  (0 <= counter_value (reinsurer_hits (simulate ret rng k)))%Z.
Proof.
  destruct (simulate_counters_shape ret rng k) as [Hh _|h t Hh _ ? _];
    rewrite Hh; cbn; lia.
Qed.

(** X5. The reinsurer was never triggered exactly when every recorded loss
    is 0: the hit counter and the loss distribution agree on whether the
    layer was ever reached. *)
Theorem no_hits_iff_no_losses (ret : R) (rng : nat -> draw) (k : nat) :
  counter_value (reinsurer_hits (simulate ret rng k)) = 0%Z
  <-> Forall (fun x => x = 0%R) (portfolio_losses (simulate ret rng k)).
Proof.
  induction k as [|k IH]; [done|].
  pose proof (simulate_hits_nonneg ret rng k) as H0.
  pose proof (np_count_bounds (np_gt_scalar (sizes (rng k)) ret)) as Hc.
  pose proof (trial_hits_zero_iff ret (sizes (rng k))) as Ht.
  cbn [simulate]. rewrite trial_losses, Forall_app, Forall_singleton, <- IH.
  unfold trial, ceded_total, ceded. case_decide; cbn.
  - rewrite <- Ht. lia.
  - tauto.
Qed.

Lemma np_count_all (a : list R) (ret : R) :
  Forall (fun s => (s > ret)%R) a ->
  np_count (np_gt_scalar a ret) = Z.of_nat (length a).
Proof.
  unfold np_count, np_sum_int, np_gt_scalar.
  induction 1 as [|s a Hs _ IH]; [done|].
  cbn [map foldr length]. rewrite (bool_decide_eq_true_2 _ Hs), IH. lia.
Qed.

Lemma np_count_none (a : list R) (ret : R) :
  Forall (fun s => (s <= ret)%R) a -> np_count (np_gt_scalar a ret) = 0%Z.
Proof.
  unfold np_count, np_sum_int, np_gt_scalar.
  induction 1 as [|s a Hs _ IH]; [done|].
  cbn [map foldr]. rewrite bool_decide_eq_false_2 by lra. by rewrite IH.
Qed.

Lemma ceded_total_zero_retention (d : draw) :
  Forall (fun s => (0 < s)%R) (sizes d) ->
  ceded_total 0 d = gross_total d.
Proof.
  intros Hs. unfold ceded_total, gross_total. case_decide; [|done].
  unfold ceded, np_maximum, np_sub_scalar, np_sum. rewrite map_map.
  induction Hs as [|s l Hs _ IH]; [done|]. cbn [map foldr].
  rewrite IH. rewrite Rmax_right by lra. lra.
Qed.

(** X6. With a retention level [R <= 0] every claim triggers the reinsurer:
    the two counters stay equal, so P(Reinsurer Pays) is 1 as soon as a
    claim was observed; and with [R = 0] a trial records its gross claims. *)
Theorem first_dollar_cover (cfg : config) (ret : R) (rng : nat -> draw)
    (k : nat) :
  (ret <= 0)%R ->
  (forall i, (i < k)%nat -> valid_draw cfg (rng i)) ->
  reinsurer_hits (simulate ret rng k) = total_claims (simulate ret rng k) /\
  ((0 < counter_value (total_claims (simulate ret rng k)))%Z ->
   prob_reinsurer_pays (simulate ret rng k) = Ok (Fin 1)) /\
  (ret = 0%R ->
   forall i, (i < k)%nat ->
     portfolio_losses (simulate ret rng k) !! i = Some (gross_total (rng i))).
Proof.
  intros Hr Hvalid.
  assert (reinsurer_hits (simulate ret rng k)
          = total_claims (simulate ret rng k)) as Heq.
  { induction k as [|k IH]; [done|].
    cbn [simulate]. unfold trial. case_decide as Hn; cbn.
    - destruct (Hvalid k ltac:(lia)) as [_ Hs].
      destruct (Hs Hn) as [Hlen Hpos].
      rewrite np_count_all, Hlen, IH.
      + f_equal. lia.
      + intros i Hi. apply Hvalid. lia.
      + eapply Forall_impl; [exact Hpos|]. intros s Hs0. cbn in *. lra.
    - apply IH. intros i Hi. apply Hvalid. lia. }
  split; [done|]. split.
  - intros Hpos.
    destruct (simulate_counters_shape ret rng k) as [_ Ht|h t Hh Ht _ Htp].
    + rewrite Ht in Hpos. cbn in Hpos. lia.
    + rewrite (prob_numpy _ h t) by done.
      rewrite Hh, Ht in Heq. injection Heq as ->.
      do 2 f_equal. field. apply not_0_IZR. lia.
  - intros -> i Hi. rewrite simulate_losses_lookup by done. f_equal.
    unfold ceded_total, gross_total.
    destruct (decide (n_claims (rng i) > 0)%Z) as [Hn|Hn].
    + destruct (Hvalid i Hi) as [_ Hs]. destruct (Hs Hn) as [_ Hpos].
      pose proof (ceded_total_zero_retention (rng i) Hpos) as Hc.
      unfold ceded_total, gross_total in Hc.
      by rewrite !decide_True in Hc by done.
    + done.
Qed.

Lemma first_dollar_cover_witness :
  reinsurer_hits (simulate 0 (two_years 27) 2)
  = total_claims (simulate 0 (two_years 27) 2) /\
  prob_reinsurer_pays (simulate 0 (two_years 27) 2) = Ok (Fin 1) /\
  portfolio_losses (simulate 0 (two_years 27) 2) !! 1%nat
  = Some (gross_total (two_years 27 1)).
Proof.
  destruct (first_dollar_cover toy_config 0 (two_years 27) 2)
    as (He & Hp & Hl).
  - lra.
  - intros i _. apply two_years_valid.
  - split; [exact He|]. split.
    + apply Hp. reflexivity.
    + apply Hl; [reflexivity | lia].
Defined.

(** X7. With a retention level no claim size exceeds, the reinsurer is never
    triggered: every recorded loss is 0, the hit counter is 0, and
    P(Reinsurer Pays) is 0 as soon as a claim was observed. *)
Theorem retention_above_all_claims (ret : R) (rng : nat -> draw) (k : nat) :
  (forall i, (i < k)%nat -> Forall (fun s => (s <= ret)%R) (sizes (rng i))) ->
  Forall (fun x => x = 0%R) (portfolio_losses (simulate ret rng k)) /\
  counter_value (reinsurer_hits (simulate ret rng k)) = 0%Z /\
  ((0 < counter_value (total_claims (simulate ret rng k)))%Z ->
   prob_reinsurer_pays (simulate ret rng k) = Ok (Fin 0)).
Proof.
  intros Hle.
  assert (counter_value (reinsurer_hits (simulate ret rng k)) = 0%Z) as Hh.
  { induction k as [|k IH]; [done|].
    cbn [simulate]. unfold trial.
    specialize (IH ltac:(intros i Hi; apply Hle; lia)).
    case_decide; cbn; [|done].
    rewrite np_count_none by (apply Hle; lia). lia. }
  split; [|split; [done|]].
  - rewrite simulate_losses. apply Forall_fmap, Forall_forall.
    intros i Hi%elem_of_seq. cbn. unfold ceded_total. case_decide; [|done].
    apply (trial_hits_zero_iff ret (sizes (rng i))).
    apply np_count_none, Hle. lia.
  - intros Hpos.
    destruct (simulate_counters_shape ret rng k) as [_ Ht|h t Hh' Ht _ Htp].
    + rewrite Ht in Hpos. cbn in Hpos. lia.
    + rewrite (prob_numpy _ h t) by done.
      rewrite Hh' in Hh. cbn in Hh. subst h.
      do 2 f_equal. unfold Rdiv. lra.
Qed.

Lemma retention_above_all_claims_witness :
  Forall (fun x => x = 0%R) (portfolio_losses (simulate 30 (two_years 27) 2)) /\
  counter_value (reinsurer_hits (simulate 30 (two_years 27) 2)) = 0%Z /\
  prob_reinsurer_pays (simulate 30 (two_years 27) 2) = Ok (Fin 0).
Proof.
  destruct (retention_above_all_claims 30 (two_years 27) 2) as (Hl & Hh & Hp).
  - intros [|i] _; cbn.
    + apply Forall_nil_2.
    + apply Forall_singleton. lra.
  - split; [exact Hl|]. split; [exact Hh|]. apply Hp. reflexivity.
Defined.

(** X8. The counters in closed form.  After [k] trials [total_claims] is
    the sum of the claim counts of the trials that had claims, and
    [reinsurer_hits] is the number of claim sizes above [R] in those
    trials. *)
Theorem counters_closed_form (ret : R) (rng : nat -> draw) (k : nat) :
  counter_value (total_claims (simulate ret rng k))
  = np_sum_int (map (fun i => Z.max 0 (n_claims (rng i))) (seq 0 k)) /\
  counter_value (reinsurer_hits (simulate ret rng k))
  = np_sum_int
      (map (fun i => if decide (n_claims (rng i) > 0)%Z
                     then Z.of_nat (length (filter (fun s => (s > ret)%R)
                                                   (sizes (rng i))))
                     else 0%Z)
           (seq 0 k)).
Proof.
  assert (forall a, np_count (np_gt_scalar a ret)
                    = Z.of_nat (length (filter (fun s => (s > ret)%R) a)))
    as Hcount.
  { intros a. unfold np_count, np_sum_int, np_gt_scalar.
    induction a as [|s a IH]; [done|]. cbn [map foldr].
    destruct (decide (s > ret)%R) as [Hs|Hs].
    - rewrite (bool_decide_eq_true_2 _ Hs), filter_cons_True by done.
      rewrite IH. cbn [length]. lia.
    - rewrite (bool_decide_eq_false_2 _ Hs), filter_cons_False by done.
      rewrite IH. lia. }
  assert (forall (f : nat -> Z) n,
            np_sum_int (map f (seq 0 (S n)))
            = (np_sum_int (map f (seq 0 n)) + f n)%Z) as Hsnoc.
  { intros f n. rewrite seq_S, map_app. unfold np_sum_int.
    rewrite foldr_app. cbn [map foldr Nat.add].
    generalize (map f (seq 0 n)). intros l.
    induction l as [|z l IH]; cbn [foldr]; lia. }
  induction k as [|k [IHt IHh]]; [done|].
  rewrite !Hsnoc, <- IHt, <- IHh. cbn [simulate]. unfold trial.
  case_decide; cbn; [rewrite Hcount|]; split; lia.
Qed.

(** ** More on the risk metrics *)

Lemma sorted_nth_le (s : list R) (i j : nat) :
  StronglySorted Rle s -> (i <= j)%nat -> (j < length s)%nat ->
  (nth i s 0 <= nth j s 0)%R.
Proof.
  intros Hs. revert i j.
  induction Hs as [|x l _ IH Hx]; intros i j Hij Hj; [cbn in Hj; lia|].
  destruct i as [|i], j as [|j]; cbn [nth]; cbn [length] in Hj.
  - lra.
  - eapply Forall_forall in Hx; [exact Hx|]. apply nth_elem_of. lia.
  - lia.
  - apply IH; lia.
Qed.

Lemma percentile_between_cells (a : list R) (q : nat) :
  (q <= 100)%nat -> a <> [] ->
  (nth (q * (length a - 1) / 100) (np_sort a) 0 <= np_percentile a q
   <= nth (Nat.min (q * (length a - 1) / 100 + 1) (length a - 1))
          (np_sort a) 0)%R.
Proof.
  intros Hq Ha.
  assert (0 < length a)%nat as Hn by (destruct a; [done | cbn; lia]).
  destruct (percentile_index_bounds q (length a) Hq Hn) as [Hlo Hhi].
  unfold np_percentile.
  pose proof (percentile_gamma_bounds (q * (length a - 1))) as Hg.
  assert (nth (q * (length a - 1) / 100) (np_sort a) 0
          <= nth (Nat.min (q * (length a - 1) / 100 + 1) (length a - 1))
                 (np_sort a) 0)%R as Hxy.
  { apply sorted_nth_le; [apply np_sort_sorted | lia|].
    by rewrite np_sort_length. }
  nra.
Qed.

Lemma sorted_prefix_le (s : list R) (i : nat) (v : R) :
  StronglySorted Rle s -> (i < length s)%nat -> (nth i s 0 <= v)%R ->
  Forall (fun x => (x <= v)%R) (take (S i) s).
Proof.
  intros Hs Hi Hv. apply Forall_lookup. intros j x Hj.
  apply lookup_take_Some in Hj as [Hx Hji].
  assert (j < length s)%nat by (by eapply lookup_lt_Some).
  assert (nth j s 0%R = x) as <-.
  { rewrite nth_lookup, Hx. done. }
  pose proof (sorted_nth_le s j i Hs ltac:(lia) Hi). lra.
Qed.

Lemma sorted_suffix_ge (s : list R) (i : nat) (v : R) :
  StronglySorted Rle s -> (i < length s)%nat -> (v <= nth i s 0)%R ->
  Forall (fun x => (x >= v)%R) (drop i s).
Proof.
  intros Hs Hi Hv. apply Forall_lookup. intros j x Hj.
  rewrite lookup_drop in Hj.
  assert (i + j < length s)%nat by (by eapply lookup_lt_Some).
  assert (nth (i + j) s 0%R = x) as <-.
  { rewrite nth_lookup, Hj. done. }
  pose proof (sorted_nth_le s i (i + j) Hs ltac:(lia) ltac:(lia)). lra.
Qed.

Lemma filter_none (P : R -> Prop) `{!forall x, Decision (P x)} (l : list R) :
  Forall (fun x => ~ P x) l -> filter P l = [].
Proof.
  induction 1 as [|x l Hx _ IH]; [done|].
  by rewrite filter_cons_False.
Qed.

Lemma filter_all (P : R -> Prop) `{!forall x, Decision (P x)} (l : list R) :
  Forall P l -> filter P l = l.
Proof.
  induction 1 as [|x l Hx _ IH]; [done|].
  rewrite filter_cons_True by done. by rewrite IH.
Qed.

(** X9. VaR 99% cuts the loss distribution where a percentile should: of
    the [n] recorded losses at most 1% (of [n + 98], the rounding of the
    index) lie strictly above it, and the tail that TVaR 99% averages, the
    losses at or above it, holds at least one loss and at least 1% of
    [n - 1]. *)
Theorem var_99_coverage (losses : list R) :
  losses <> [] ->
  (100 * length (filter (fun x => (x > VaR_99 losses)%R) losses)
   <= length losses + 98)%nat /\
  (1 <= length (np_select_ge losses (VaR_99 losses)))%nat /\
  (length losses - 1
   <= 100 * length (np_select_ge losses (VaR_99 losses)))%nat.
Proof.
  intros Hne.
  assert (0 < length losses)%nat as Hn by (destruct losses; [done|cbn; lia]).
  destruct (percentile_index_bounds 99 (length losses) ltac:(lia) Hn)
    as [Hlo Hhi].
  destruct (percentile_between_cells losses 99 ltac:(lia) Hne) as [Hx Hy].
  fold (VaR_99 losses) in Hx, Hy.
  destruct (np_sort_sorted losses) as [Hs Hperm].
  pose proof (np_sort_length losses) as Hlen.
  set (lo := (99 * (length losses - 1) / 100)%nat) in *.
  set (hi := Nat.min (lo + 1) (length losses - 1)) in *.
  assert (100 * lo <= 99 * (length losses - 1))%nat as Hlo1
    by (apply Nat.Div0.mul_div_le).
  assert (99 * (length losses - 1) < 100 * (lo + 1))%nat as Hlo2.
  { pose proof (Nat.div_mod_eq (99 * (length losses - 1)) 100) as Hd.
    pose proof (Nat.mod_upper_bound (99 * (length losses - 1)) 100
                  ltac:(lia)).
    fold lo in Hd. lia. }
  assert (forall (P : R -> Prop) `{!forall x, Decision (P x)},
            length (filter P losses) = length (filter P (np_sort losses)))
    as Hfilter by (intros; by rewrite Hperm).
  assert (length (filter (fun x => (x > VaR_99 losses)%R) losses)
          <= length losses - S lo)%nat as Hgt.
  { rewrite Hfilter, <- (take_drop (S lo) (np_sort losses)), filter_app.
    rewrite (filter_none _ (take _ _)).
    - cbn [app]. etrans; [apply length_filter|].
      rewrite length_drop. lia.
    - eapply Forall_impl;
        [apply (sorted_prefix_le _ lo (VaR_99 losses)); (done || lia)|].
      intros x Hxv. cbn in *. lra. }
  assert (length losses - hi
          <= length (np_select_ge losses (VaR_99 losses)))%nat as Hge.
  { unfold np_select_ge.
    rewrite Hfilter, <- (take_drop hi (np_sort losses)), filter_app.
    rewrite (filter_all _ (drop _ _)).
    - rewrite length_app, length_drop. lia.
    - apply sorted_suffix_ge; (done || lia). }
  lia.
Qed.

Lemma var_99_coverage_witness :
  (100 * length (filter (fun x => (x > VaR_99 [0; 2])%R) [0%R; 2%R])
   <= length [0%R; 2%R] + 98)%nat /\
  (1 <= length (np_select_ge [0%R; 2%R] (VaR_99 [0%R; 2%R])))%nat /\
  (length [0%R; 2%R] - 1
   <= 100 * length (np_select_ge [0%R; 2%R] (VaR_99 [0%R; 2%R])))%nat.
Proof. apply (var_99_coverage [0%R; 2%R]). discriminate. Defined.










(** ** The evaluation of one retention level *)

(** X12. The three outcomes of a level's evaluation, for [N_SIM >= 1].  It
    returns metrics exactly when a claim was observed and the level has a
    premium; it raises [ZeroDivisionError] exactly when no claim was
    observed, and [KeyError] exactly when a claim was observed and the
    premium is missing. *)
Theorem retention_report_outcome (cfg : config) (ret : Z) (rng : nat -> draw) :
  (0 < N_SIM cfg)%nat ->
  match retention_report cfg ret rng with
  | Ok _ =>
      (0 < counter_value (total_claims (simulate (IZR ret) rng (N_SIM cfg))))%Z
      /\ is_Some (PREMIUMS cfg !! ret)
  | Raise ZeroDivisionError =>
      counter_value (total_claims (simulate (IZR ret) rng (N_SIM cfg))) = 0%Z
  | Raise KeyError =>
      (0 < counter_value (total_claims (simulate (IZR ret) rng (N_SIM cfg))))%Z
      /\ PREMIUMS cfg !! ret = None
  end.
Proof.
  intros _. unfold retention_report.
  destruct (simulate_counters_shape (IZR ret) rng (N_SIM cfg))
    as [Hh Ht|h t Hh Ht H0 Hpos].
  - rewrite prob_untouched by done. cbn. by rewrite Ht.
  - rewrite (prob_numpy _ h t) by done. cbn.
    unfold value_for_money_of, getitem. rewrite Ht. cbn.
    destruct (PREMIUMS cfg !! ret) as [premium|] eqn:Hp; cbn; [|done].
    split; [done | by eexists].
Qed.

Lemma retention_report_outcome_witness :
  match retention_report toy_config 25 (two_years 27) with
  | Ok _ =>
      (0 < counter_value
             (total_claims (simulate 25 (two_years 27) (N_SIM toy_config))))%Z
      /\ is_Some (PREMIUMS toy_config !! 25%Z)
  | Raise ZeroDivisionError =>
      counter_value
        (total_claims (simulate 25 (two_years 27) (N_SIM toy_config))) = 0%Z
  | Raise KeyError =>
      (0 < counter_value
             (total_claims (simulate 25 (two_years 27) (N_SIM toy_config))))%Z
      /\ PREMIUMS toy_config !! 25%Z = None
  end.
Proof.
  apply (retention_report_outcome toy_config 25 (two_years 27)). cbn. lia.
Defined.






(** X14. A premium of 0 raises nothing: the level's evaluation still
    returns, with a Value for Money that is not a finite number (an infinity
    or NaN). *)
Theorem zero_premium_not_finite (cfg : config) (ret : Z) (rng : nat -> draw) :
  PREMIUMS cfg !! ret = Some 0%R ->
  (0 < counter_value (total_claims (simulate (IZR ret) rng (N_SIM cfg))))%Z ->
  exists m, retention_report cfg ret rng = Ok m /\
            forall r : R, value_for_money m <> Fin r.
Proof.
  intros Hp Hpos.
  destruct (retention_report_ok cfg ret rng 0 Hpos Hp) as [m Hm].
  exists m. split; [done|].
  apply retention_report_fields in Hm as (_ & _ & _ & _ & _ & Hvfm).
  unfold value_for_money_of, getitem in Hvfm. rewrite Hp in Hvfm.
  cbn in Hvfm. injection Hvfm as <-. intros r.
  unfold np_truediv. destruct (mean_loss m); try done.
  - rewrite decide_True by done. repeat case_decide; done.
  - case_decide; done.
  - case_decide; done.
Qed.

Lemma zero_premium_not_finite_witness :
  exists m, retention_report free_config 25 (two_years 27) = Ok m /\
            forall r : R, value_for_money m <> Fin r.
Proof.
  apply (zero_premium_not_finite free_config 25 (two_years 27)).
  - apply lookup_singleton_eq.
  - reflexivity.
Defined.

(** ** The whole run and its output *)

Lemma report_levels_spec (cfg : config) (rng : nat -> nat -> draw) (i : nat)
    (rets : list Z) :
  exists (ms : list metrics) (r : option exn),
    report_levels cfg rng i rets = (zip_with Block rets ms, r) /\
    (forall j m, ms !! j = Some m ->
       exists ret, rets !! j = Some ret /\
                   retention_report cfg ret (rng (i + j)%nat) = Ok m) /\
    mapM (fun '(j, ret) => retention_report cfg ret (rng j))
         (imap (fun j => pair (i + j)%nat) rets)
    = match r with None => Ok ms | Some e => Raise e end /\
    match r with
    | None => length ms = length rets
    | Some e =>
        exists ret, rets !! length ms = Some ret /\
                    retention_report cfg ret (rng (i + length ms)%nat) = Raise e
    end.
Proof.
  revert i. induction rets as [|ret rets IH]; intros i.
  - exists [], None. by repeat split.
  - cbn [report_levels imap mapM].
    replace (i + 0)%nat with i by lia.
    destruct (retention_report cfg ret (rng i)) as [m|e] eqn:Hm.
    + destruct (IH (S i)) as (ms & r & Hrep & Hall & Hmap & Hr).
      exists (m :: ms), r. rewrite Hrep.
      assert (imap ((fun j => pair (i + j)%nat) ∘ S) rets
              = imap (fun j => pair (S i + j)%nat) rets) as ->.
      { apply imap_ext. intros j x _. cbn. f_equal. lia. }
      split; [done|]. split; [|split].
      * intros [|j] m' Hj; cbn in Hj.
        -- injection Hj as <-. exists ret.
           by replace (i + 0)%nat with i by lia.
        -- destruct (Hall j m' Hj) as (ret' & Hret & Hok).
           exists ret'. split; [done|].
           by replace (i + S j)%nat with (S i + j)%nat by lia.
      * cbn [mbind result_bind]. rewrite Hmap. by destruct r.
      * destruct r as [e|]; cbn [length].
        -- destruct Hr as (ret' & Hret & Hraise). exists ret'.
           split; [done|].
           by replace (i + S (length ms))%nat
             with (S i + length ms)%nat by lia.
        -- by rewrite Hr.
    + exists [], (Some e). split; [done|]. split; [done|].
      split; [done|]. exists ret. split; [done|].
      cbn [length]. by replace (i + 0)%nat with i by lia.
Qed.

(** X15. What a run prints.  The banner comes first, before anything can
    fail; then come the blocks of the retention levels, in the order of
    [RETENTIONS], each with the metrics of its own evaluation, up to the
    first level whose evaluation raises.  The run returns normally exactly
    when every level got its block; otherwise it ends with the exception of
    the parameterizer (no block printed) or of the first failing level.
    [run_engine] returns the same metrics or raises the same exception. *)
Theorem run_engine_output (cfg : config) (mean std : R) (title : string)
    (rng : nat -> nat -> draw) :
  (0 < N_SIM cfg)%nat ->
  exists (ms : list metrics) (r : option exn),
    run_engine_prints cfg mean std title rng
    = (Banner title :: zip_with Block (RETENTIONS cfg) ms, r) /\
    (forall j m, ms !! j = Some m ->
       exists ret, RETENTIONS cfg !! j = Some ret /\
                   retention_report cfg ret (rng j) = Ok m) /\
    run_engine cfg mean std rng
    = match r with None => Ok ms | Some e => Raise e end /\
    match r with
    | None => length ms = length (RETENTIONS cfg)
    | Some e =>
        (ms = [] /\ lognormal_params mean std = Raise e) \/
        (exists ret, RETENTIONS cfg !! length ms = Some ret /\
                     retention_report cfg ret (rng (length ms)) = Raise e)
    end.
Proof.
  intros _. unfold run_engine_prints, run_engine.
  destruct (lognormal_params mean std) as [params|e] eqn:Hparams.
  - destruct (report_levels_spec cfg rng 0 (RETENTIONS cfg))
      as (ms & r & Hrep & Hall & Hmap & Hr).
    exists ms, r. rewrite Hrep. split; [done|]. split; [exact Hall|].
    split; [exact Hmap|]. destruct r as [e|]; [by right | done].
  - exists [], (Some e). split.
    + by destruct (RETENTIONS cfg).
    + split; [done|]. split; [done|]. by left.
Qed.

Lemma run_engine_output_witness :
  exists (ms : list metrics) (r : option exn),
    run_engine_prints toy_config 0 1 "Zero mean" (fun _ => two_years 27)
    = (Banner "Zero mean" :: zip_with Block (RETENTIONS toy_config) ms, r) /\
    (forall j m, ms !! j = Some m ->
       exists ret, RETENTIONS toy_config !! j = Some ret /\
                   retention_report toy_config ret (two_years 27) = Ok m) /\
    run_engine toy_config 0 1 (fun _ => two_years 27)
    = match r with None => Ok ms | Some e => Raise e end /\
    match r with
    | None => length ms = length (RETENTIONS toy_config)
    | Some e =>
        (ms = [] /\ lognormal_params 0 1 = Raise e) \/
        (exists ret, RETENTIONS toy_config !! length ms = Some ret /\
                     retention_report toy_config ret (two_years 27) = Raise e)
    end.
Proof.
  apply (run_engine_output toy_config 0 1 "Zero mean" (fun _ => two_years 27)).
  cbn. lia.
Defined.









